(** * WinModuleList: the module enumerator of ModuleList.cpp

    A shallow embedding of [ModuleList/ModuleList.cpp] over a small model
    of the Win32 services the program talks to (Tool Help snapshots, the
    thread's last-error slot, handles, the console).

    - C++ values are Rocq values: [DWORD], [HANDLE] and [LONGLONG] are
      integers in [Z] (the only conversion in the program, the
      [static_cast<DWORD>], has its wrap-around written out), wide strings
      are lists of UTF-16 code units.
    - C++ control is a state-and-exception monad [Cpp] over the [World];
      a scope that owns a [ScopedHandle] runs the destructor on every way
      out.
    - The operating system is a test double with an explicit state: which
      processes it can snapshot, which snapshot handles are open, the
      last-error value, and a log of the calls it has served. *)

From Stdlib Require Import ZArith String Ascii DecimalString.
From Equations Require Import Equations.
From Equations.Prop Require Import Logic.
From stdpp Require Import gmap list.

Open Scope Z_scope.

(* ===================================================================== *)
(** * Wide strings *)
(* ===================================================================== *)

(** A [std::wstring] (and a [wchar_t] buffer) is a list of code units. *)
Abbreviation wstring := (list Z).

(** The wide literal [L"..."] of an ASCII text. *)
Definition L (s : string) : wstring :=
  map (fun c => Z.of_N (N_of_ascii c)) (list_ascii_of_string s).

(** The line feed written ["\n"] in the source. *)
Definition LF : wstring := [10].

(** [std::wstring(const wchar_t* p)]: the code units from [p] up to the
    first NUL. The argument is the memory at [p] and after it, as far as
    the object [p] points into reaches: the scan does not know of array
    bounds inside that object and runs on until it meets a NUL. Past the
    end of the object C++ defines nothing; the scan here ends there, and
    no statement below speaks of a name read without meeting a NUL. *)
Fixpoint wstring_of_c_str (buf : list Z) : wstring :=
  match buf with
  | [] => []
  | c :: rest => if c =? 0 then [] else c :: wstring_of_c_str rest
  end.

(** A [WCHAR] array of [n] elements that starts with [init], the rest
    zero. *)
Definition wchar_array (n : nat) (init : list Z) : list Z :=
  take n (init ++ repeat 0 n).

(** [std::wcout << n] for an unsigned integer: its decimal digits. *)
Definition decimal (n : Z) : wstring :=
  L (NilZero.string_of_uint (N.to_uint (Z.to_N n))).

(* ===================================================================== *)
(** * Win32 constants and structures *)
(* ===================================================================== *)

Module Win32.

Definition INVALID_HANDLE_VALUE : Z := -1.
Definition TH32CS_SNAPMODULE : Z := 8.
Definition STIF_DEFAULT : Z := 0.

Definition ERROR_INVALID_HANDLE : Z := 6.
Definition ERROR_NO_MORE_FILES : Z := 18.
Definition ERROR_INVALID_PARAMETER : Z := 87.

Definition MAX_MODULE_NAME32 : nat := 255.
Definition MAX_PATH : nat := 260.

End Win32.
Import Win32.

(** The [MODULEENTRY32] structure of the Tool Help library (wide build). *)
Record MODULEENTRY32 : Type := mkMODULEENTRY32 {
  dwSize : Z;
  th32ModuleID : Z;
  th32ProcessID : Z;
  GlblcntUsage : Z;
  ProccntUsage : Z;
  modBaseAddr : Z;
  modBaseSize : Z;
  hModule : Z;
  szModule : list Z;    (* WCHAR [MAX_MODULE_NAME32 + 1] *)
  szExePath : list Z    (* WCHAR [MAX_PATH] *)
}.

(** The two arrays have the sizes the structure declares. *)
Definition MODULEENTRY32_wf (e : MODULEENTRY32) : Prop :=
  length (szModule e) = S MAX_MODULE_NAME32
  /\ length (szExePath e) = MAX_PATH.

(** [sizeof(MODULEENTRY32)] on a 64-bit wide build. *)
Definition sizeof_MODULEENTRY32 : Z := 1080.

(** [MODULEENTRY32 moduleEntry = { sizeof(moduleEntry) };]: the first
    member is given, all the others are zero-initialised. *)
Definition MODULEENTRY32_init : MODULEENTRY32 :=
  {| dwSize := sizeof_MODULEENTRY32;
     th32ModuleID := 0; th32ProcessID := 0;
     GlblcntUsage := 0; ProccntUsage := 0;
     modBaseAddr := 0; modBaseSize := 0; hModule := 0;
     szModule := repeat 0 (S MAX_MODULE_NAME32);
     szExePath := repeat 0 MAX_PATH |}.

(* ===================================================================== *)
(** * The operating system as a test double *)
(* ===================================================================== *)

(** What the Tool Help service answers for a process identifier: it
    refuses with an error code, or it has a module list. [stop] is the
    error code the walk reports once it runs past the last entry: the
    real service reports [ERROR_NO_MORE_FILES]; a double reports another
    code to play an enumeration that breaks off. *)
Inductive Toolhelp : Type :=
| Refused (error : Z)
| Modules (entries : list MODULEENTRY32) (stop : Z).

(** An open snapshot: the entries not yet handed out by
    [Module32Next], all its entries (for [Module32First]), and its stop
    code. *)
Record Cursor : Type := mkCursor {
  cur_all : list MODULEENTRY32;
  cur_rest : list MODULEENTRY32;
  cur_stop : Z
}.

(** The calls the double has served, with their results. *)
Inductive OsCall : Type :=
| call_CreateToolhelp32Snapshot (dwFlags th32ProcessID : Z) (result : Z)
| call_Module32First (hSnapshot : Z) (result : bool)
| call_Module32Next (hSnapshot : Z) (result : bool)
| call_CloseHandle (hObject : Z) (result : bool).

Record World : Type := mkWorld {
  processes : gmap Z Toolhelp;   (* what can be snapshotted *)
  handles : gmap Z Cursor;       (* the open snapshot handles *)
  last_error : Z;                (* the thread's last-error code *)
  calls : list OsCall;           (* the log, oldest call first *)
  console : list Z               (* what was written to std::wcout *)
}.

Definition set_last_error (e : Z) (w : World) : World :=
  {| processes := processes w; handles := handles w; last_error := e;
     calls := calls w; console := console w |}.

Definition set_handles (hs : gmap Z Cursor) (w : World) : World :=
  {| processes := processes w; handles := hs; last_error := last_error w;
     calls := calls w; console := console w |}.

Definition log_call (c : OsCall) (w : World) : World :=
  {| processes := processes w; handles := handles w;
     last_error := last_error w; calls := calls w ++ [c];
     console := console w |}.

Definition write_console (text : list Z) (w : World) : World :=
  {| processes := processes w; handles := handles w;
     last_error := last_error w; calls := calls w;
     console := console w ++ text |}.

(** A system call: it cannot throw; it returns a value and a new world. *)
Definition Sys (A : Type) : Type := World -> A * World.

(** A handle value that is neither the invalid one nor in use. *)
Definition fresh_handle (w : World) : Z :=
  fresh ({[ INVALID_HANDLE_VALUE; 0 ]} ∪ dom (handles w)).

(** The modules a snapshot taken with [dwFlags] includes: the module list
    is part of it only when [TH32CS_SNAPMODULE] is among the flags. *)
Definition snapshot_modules (dwFlags : Z) (entries : list MODULEENTRY32)
  : list MODULEENTRY32 :=
  if Z.testbit dwFlags 3 then entries else [].

Definition CreateToolhelp32Snapshot (dwFlags th32ProcessID : Z) : Sys Z :=
  fun w =>
    match processes w !! th32ProcessID with
    | Some (Modules entries stop) =>
        let h := fresh_handle w in
        let ms := snapshot_modules dwFlags entries in
        let c := {| cur_all := ms; cur_rest := ms; cur_stop := stop |} in
        (h, log_call (call_CreateToolhelp32Snapshot dwFlags th32ProcessID h)
              (set_handles (<[h := c]> (handles w)) w))
    | Some (Refused error) =>
        (INVALID_HANDLE_VALUE,
         log_call (call_CreateToolhelp32Snapshot dwFlags th32ProcessID
                     INVALID_HANDLE_VALUE)
           (set_last_error error w))
    | None =>
        (INVALID_HANDLE_VALUE,
         log_call (call_CreateToolhelp32Snapshot dwFlags th32ProcessID
                     INVALID_HANDLE_VALUE)
           (set_last_error ERROR_INVALID_PARAMETER w))
    end.

(** The service fills the caller's structure and leaves its [dwSize]. *)
Definition fill_entry (lpme found : MODULEENTRY32) : MODULEENTRY32 :=
  {| dwSize := dwSize lpme;
     th32ModuleID := th32ModuleID found; th32ProcessID := th32ProcessID found;
     GlblcntUsage := GlblcntUsage found; ProccntUsage := ProccntUsage found;
     modBaseAddr := modBaseAddr found; modBaseSize := modBaseSize found;
     hModule := hModule found;
     szModule := szModule found; szExePath := szExePath found |}.

(** Hand out the head of [from], or stop with the cursor's stop code. The
    structure pointed to by [lpme] is an in-out parameter: the result
    carries its new contents. *)
Definition fetch_entry (mk : Z -> bool -> OsCall) (hSnapshot : Z)
    (from : Cursor -> list MODULEENTRY32) (lpme : MODULEENTRY32)
  : Sys (bool * MODULEENTRY32) :=
  fun w =>
    match handles w !! hSnapshot with
    | None =>
        ((false, lpme),
         log_call (mk hSnapshot false) (set_last_error ERROR_INVALID_HANDLE w))
    | Some c =>
        match from c with
        | found :: rest =>
            let c' := {| cur_all := cur_all c; cur_rest := rest;
                         cur_stop := cur_stop c |} in
            ((true, fill_entry lpme found),
             log_call (mk hSnapshot true)
               (set_handles (<[hSnapshot := c']> (handles w)) w))
        | [] =>
            let c' := {| cur_all := cur_all c; cur_rest := [];
                         cur_stop := cur_stop c |} in
            ((false, lpme),
             log_call (mk hSnapshot false)
               (set_last_error (cur_stop c)
                  (set_handles (<[hSnapshot := c']> (handles w)) w)))
        end
    end.

Definition Module32First (hSnapshot : Z) (lpme : MODULEENTRY32)
  : Sys (bool * MODULEENTRY32) :=
  fetch_entry call_Module32First hSnapshot cur_all lpme.

Definition Module32Next (hSnapshot : Z) (lpme : MODULEENTRY32)
  : Sys (bool * MODULEENTRY32) :=
  fetch_entry call_Module32Next hSnapshot cur_rest lpme.

Definition CloseHandle (hObject : Z) : Sys bool :=
  fun w =>
    match handles w !! hObject with
    | Some _ =>
        (true, log_call (call_CloseHandle hObject true)
                 (set_handles (delete hObject (handles w)) w))
    | None =>
        (false, log_call (call_CloseHandle hObject false)
                  (set_last_error ERROR_INVALID_HANDLE w))
    end.

Definition GetLastError : Sys Z := fun w => (last_error w, w).

(** [std::wcout << text]. *)
Definition wcout (text : list Z) : Sys unit :=
  fun w => (tt, write_console text w).

(* ===================================================================== *)
(** * C++ control: state and exceptions *)
(* ===================================================================== *)

(** The exceptions of the program, by the two handlers of [wmain]: the
    program's own [Win32Error] (a [std::runtime_error] with an error code)
    and every other [std::exception], known by its [what()]. Whatever the
    program and the standard library it calls can throw derives from
    [std::exception]. Memory is taken as unbounded: [push_back] and the
    string copies do not throw, so the runs below only ever raise
    [Win32Error]; the handlers are stated for both kinds. *)
Inductive exception : Type :=
| Win32Error (errorMessage : string) (errorCode : Z)
| std_exception (message : string).

Definition what (e : exception) : string :=
  match e with
  | Win32Error errorMessage _ => errorMessage
  | std_exception message => message
  end.

(** How a call ends: it returns a value or it leaves by an exception. *)
Inductive outcome (A : Type) : Type :=
| Return (a : A)
| Throw (e : exception).
Arguments Return {A} a.
Arguments Throw {A} e.

Definition Cpp (A : Type) : Type := World -> outcome A * World.

Definition ret {A} (a : A) : Cpp A := fun w => (Return a, w).

Definition bind {A B} (m : Cpp A) (k : A -> Cpp B) : Cpp B :=
  fun w =>
    match m w with
    | (Return a, w') => k a w'
    | (Throw e, w') => (Throw e, w')
    end.

Definition throw {A} (e : exception) : Cpp A := fun w => (Throw e, w).

(** A system call made from C++ code. *)
Definition sys {A} (call : Sys A) : Cpp A :=
  fun w => let (a, w') := call w in (Return a, w').

(** [try { body } catch (...) { handler }]. *)
Definition try_catch {A} (body : Cpp A) (handler : exception -> Cpp A)
  : Cpp A :=
  fun w =>
    match body w with
    | (Return a, w') => (Return a, w')
    | (Throw e, w') => handler e w'
    end.

Notation "'let*' x ':=' m 'in' k" := (bind m (fun x => k))
  (at level 10, x pattern, m at level 100, k at level 200).

(* ===================================================================== *)
(** * ScopedHandle *)
(* ===================================================================== *)

Record ScopedHandle : Type := mkScopedHandle { m_handle : Z }.

(** [explicit ScopedHandle(HANDLE h) noexcept]. *)
Definition ScopedHandle_ctor (h : Z) : ScopedHandle := {| m_handle := h |}.

(** [~ScopedHandle() noexcept]: closes the handle, whose result is
    dropped, and forgets it. The object as it is left behind is returned
    with the world. *)
Definition ScopedHandle_dtor (this : ScopedHandle) : Sys ScopedHandle :=
  fun w =>
    let (_, w') := CloseHandle (m_handle this) w in
    ({| m_handle := INVALID_HANDLE_VALUE |}, w').

(** [HANDLE Get() const noexcept]. *)
Definition Get (this : ScopedHandle) : Z := m_handle this.

(** The rest of a block after the declaration of a [ScopedHandle] local:
    the destructor runs when the block is left, by [return] and by an
    exception alike, and the way the block was left is kept. Copy and
    move are deleted, so the object handed to the block is the only
    owner. *)
Definition scope {A} (object : ScopedHandle) (block : ScopedHandle -> Cpp A)
  : Cpp A :=
  fun w =>
    let (r, w1) := block object w in
    let (_, w2) := ScopedHandle_dtor object w1 in
    (r, w2).

(* ===================================================================== *)
(** * Win32Error helper and ModuleInfo *)
(* ===================================================================== *)

(** [void ThrowLastWin32Error(const char* message)]. *)
Definition ThrowLastWin32Error (message : string) : Cpp unit :=
  let* errorCode := sys GetLastError in
  throw (Win32Error message errorCode).

Record ModuleInfo : Type := mkModuleInfo {
  Name : wstring;
  Size : Z
}.

(** [ModuleInfo(std::wstring const& name, DWORD size)]. *)
Definition ModuleInfo_ctor (name : wstring) (size : Z) : ModuleInfo :=
  {| Name := name; Size := size |}.

(** [std::vector<T>::push_back]. *)
Definition push_back {T} (v : list T) (x : T) : list T := v ++ [x].

(** The record line 145 builds from the entry just fetched:
    [ModuleInfo{ moduleEntry.szModule, moduleEntry.modBaseSize }]. The
    array [szModule] decays to a pointer to its first element and
    converts to [std::wstring] as a C string. [szModule] and [szExePath]
    are the last two members of the structure and lie one after the
    other, so the memory at that pointer is [szModule] followed by
    [szExePath]: a [szModule] without a NUL makes the name run on into
    [szExePath]. *)
Definition ModuleInfo_of_entry (moduleEntry : MODULEENTRY32) : ModuleInfo :=
  ModuleInfo_ctor
    (wstring_of_c_str (szModule moduleEntry ++ szExePath moduleEntry))
    (modBaseSize moduleEntry).

(* ===================================================================== *)
(** * GetModuleListInProcess *)
(* ===================================================================== *)

(** The entries an open snapshot has not handed out yet. *)
Definition pending (hSnapshot : Z) (w : World) : nat :=
  match handles w !! hSnapshot with
  | Some c => length (cur_rest c)
  | None => 0%nat
  end.

(** The measure of the [while] loop: one more turn while the flag is set,
    and one per entry that [Module32Next] still has to hand out. *)
Definition loop_measure (hSnapshot : Z) (continueEnumeration : bool)
    (w : World) : nat :=
  ((if continueEnumeration then 1 else 0) + pending hSnapshot w)%nat.

(** Lines 141-149, entered with the result of [Module32First]:
<<
    while (continueEnumeration)
    {
        moduleList.push_back(ModuleInfo{ moduleEntry.szModule, moduleEntry.modBaseSize });
        continueEnumeration = ::Module32Next(enumHandle.Get(), &moduleEntry);
    }
>>
    The loop ends because every turn but the last consumes an entry of
    the snapshot. *)
Equations enumeration_loop (hEnum : Z) (continueEnumeration : bool)
    (moduleEntry : MODULEENTRY32) (moduleList : list ModuleInfo) (w : World)
  : list ModuleInfo * World
  by wf (loop_measure hEnum continueEnumeration w) lt :=
  enumeration_loop hEnum false moduleEntry moduleList w := (moduleList, w);
  enumeration_loop hEnum true moduleEntry moduleList w
    with inspect (Module32Next hEnum moduleEntry w) := {
    | exist _ (continueEnumeration', moduleEntry', w') Hnext :=
        enumeration_loop hEnum continueEnumeration' moduleEntry'
          (push_back moduleList (ModuleInfo_of_entry moduleEntry)) w' }.
Next Obligation.
  intros hEnum moduleEntry _ w continueEnumeration' moduleEntry' w' Hnext _.
  revert Hnext.
  unfold Module32Next, fetch_entry, loop_measure, pending.
  destruct (handles w !! hEnum) as [c|] eqn:Hc.
  - destruct (cur_rest c) as [|found rest] eqn:Hrest;
      intros [= <- <- <-]; cbn; rewrite lookup_insert_eq; cbn; lia.
  - intros [= <- <- <-]; cbn. rewrite Hc. lia.
Qed.

Definition GetModuleListInProcess (processID : Z) : Cpp (list ModuleInfo) :=
  let moduleList : list ModuleInfo := [] in
  let* hEnum := sys (CreateToolhelp32Snapshot TH32CS_SNAPMODULE processID) in
  let* _ :=
    if hEnum =? INVALID_HANDLE_VALUE
    then ThrowLastWin32Error
           "Cannot init the module enumeration process (CreateToolhelp32Snapshot failed)."
    else ret tt in
  scope (ScopedHandle_ctor hEnum) (fun enumHandle =>
    let moduleEntry := MODULEENTRY32_init in
    let* (continueEnumeration, moduleEntry) :=
      sys (Module32First (Get enumHandle) moduleEntry) in
    let* moduleList :=
      sys (enumeration_loop (Get enumHandle) continueEnumeration
             moduleEntry moduleList) in
    let* lastError := sys GetLastError in
    let* _ :=
      if negb (lastError =? ERROR_NO_MORE_FILES)
      then ThrowLastWin32Error
             "Unexpected termination of the module enumeration process."
      else ret tt in
    ret moduleList).

(* ===================================================================== *)
(** * wmain *)
(* ===================================================================== *)

(** A stand-in for shlwapi's [StrToInt64ExW], used where a concrete
    conversion routine is needed: blanks, an optional sign, then decimal
    digits up to the first other code unit; at least one digit is
    required, and the value wraps to 64 bits. [wmain] itself is stated
    over any conversion routine (see the section below). *)
Module Shlwapi.

Definition is_space (c : Z) : bool :=
  (c =? 32) || ((9 <=? c) && (c <=? 13)).

Definition is_digit (c : Z) : bool := (48 <=? c) && (c <=? 57).

Fixpoint skip_spaces (s : list Z) : list Z :=
  match s with
  | c :: rest => if is_space c then skip_spaces rest else s
  | [] => []
  end.

(** The value as a two's complement 64-bit integer. *)
Definition to_LONGLONG (x : Z) : Z := (x + 2^63) mod 2^64 - 2^63.

Fixpoint read_digits (value : Z) (s : list Z) : Z :=
  match s with
  | c :: rest =>
      if is_digit c
      then read_digits (to_LONGLONG (value * 10 + (c - 48))) rest
      else value
  | [] => value
  end.

Definition read_decimal (negative : bool) (s : list Z) : option Z :=
  match s with
  | c :: _ =>
      if is_digit c
      then let value := read_digits 0 s in
           Some (if negative then to_LONGLONG (- value) else value)
      else None
  | [] => None
  end.

Definition StrToInt64ExW (pszString : list Z) (dwFlags : Z) : option Z :=
  match skip_spaces pszString with
  | 45 :: rest => read_decimal true rest
  | 43 :: rest => read_decimal false rest
  | s => read_decimal false s
  end.

End Shlwapi.

(** [static_cast<DWORD>(x)] of a [LONGLONG]: the low 32 bits. *)
Definition static_cast_DWORD (x : Z) : Z := x mod 2^32.

Definition kExitOk : Z := 0.
Definition kExitError : Z := 1.

(** Lines 208-211: one line per module, in the order of the vector. *)
Fixpoint print_module_list (moduleList : list ModuleInfo) : Cpp unit :=
  match moduleList with
  | [] => ret tt
  | moduleInfo :: rest =>
      let* _ := sys (wcout (L " - " ++ Name moduleInfo ++ L "  ("
                            ++ decimal (Size moduleInfo) ++ L " bytes)"
                            ++ LF)) in
      print_module_list rest
  end.

(** Lines 218-228: the handlers, tried in order; [Win32Error] derives
    from [std::exception] and is caught by the first. *)
Definition wmain_catch (e : exception) : Cpp Z :=
  match e with
  | Win32Error _ errorCode =>
      let* _ := sys (wcout (L "*** ERROR: " ++ L (what e) ++ LF)) in
      let* _ := sys (wcout (L "    (Error code: " ++ decimal errorCode
                            ++ L ")" ++ LF)) in
      ret kExitError
  | std_exception _ =>
      let* _ := sys (wcout (L "*** ERROR: " ++ L (what e) ++ LF)) in
      ret kExitError
  end.

Section Wmain.

(** [::StrToInt64ExW(pszString, dwFlags, &llResult)] of the Shell
    library: [Some] of the value stored in [llResult] when it answers
    TRUE, [None] when it answers FALSE. *)
Variable StrToInt64ExW : list Z -> Z -> option Z.

(** [argv[i]]; the C runtime passes [argc] strings. *)
Definition argv_at (argv : list (list Z)) (i : nat) : list Z :=
  default [] (argv !! i).

(** Lines 172-213: the body of the [try] block. *)
Definition wmain_try (argc : Z) (argv : list (list Z)) : Cpp Z :=
  let* _ := sys (wcout (LF ++ L " *** Enumerate Modules in a Process *** "
                        ++ LF)) in
  let* _ := sys (wcout (L "          by Giovanni Dicanio " ++ LF ++ LF)) in
  if negb (argc =? 2) then
    let* _ := sys (wcout (L "Please pass the ID of the process to enumerate as the only parameter." ++ LF)) in
    ret kExitError
  else
    match StrToInt64ExW (argv_at argv 1) STIF_DEFAULT with
    | None =>
        let* _ := sys (wcout (L "Please pass the ID of the process to enumerate as an integer in base 10." ++ LF)) in
        ret kExitError
    | Some llResult =>
        let processID := static_cast_DWORD llResult in
        let* moduleList := GetModuleListInProcess processID in
        let* _ := sys (wcout (L " Module List for Process ID = "
                              ++ decimal processID ++ LF)) in
        let* _ := sys (wcout (L " ========================================"
                              ++ LF ++ LF)) in
        let* _ := print_module_list moduleList in
        ret kExitOk
    end.

Definition wmain (argc : Z) (argv : list (list Z)) : Cpp Z :=
  try_catch (wmain_try argc argv) wmain_catch.

End Wmain.

(* ===================================================================== *)
(** * Vocabulary of the statements *)
(* ===================================================================== *)

(** The handles a stretch of the log shows as opened: the results of the
    [CreateToolhelp32Snapshot] calls that did not fail. *)
Definition opened (trace : list OsCall) : list Z :=
  omap (fun c =>
          match c with
          | call_CreateToolhelp32Snapshot _ _ h =>
              if h =? INVALID_HANDLE_VALUE then None else Some h
          | _ => None
          end) trace.

(** The handles a stretch of the log shows as passed to [CloseHandle]. *)
Definition closed (trace : list OsCall) : list Z :=
  omap (fun c =>
          match c with
          | call_CloseHandle h _ => Some h
          | _ => None
          end) trace.

(** The fetches of a walk over a snapshot of [n] entries. *)
Definition walk_calls (h : Z) (n : nat) : list OsCall :=
  match n with
  | O => [call_Module32First h false]
  | S k => call_Module32First h true
           :: repeat (call_Module32Next h true) k
           ++ [call_Module32Next h false]
  end.

(** Lines 137-149 as one step: the first fetch into a fresh structure and
    the loop. The world it returns is the world as the loop leaves it. *)
Definition enumeration (hEnum : Z) : Sys (list ModuleInfo) :=
  fun w =>
    let '((continueEnumeration, moduleEntry), w') :=
      Module32First hEnum MODULEENTRY32_init w in
    enumeration_loop hEnum continueEnumeration moduleEntry [] w'.

(** The two lines every run of [wmain] starts with. *)
Definition banner : list Z :=
  (LF ++ L " *** Enumerate Modules in a Process *** " ++ LF)
  ++ (L "          by Giovanni Dicanio " ++ LF ++ LF).

Definition usage_count : list Z :=
  L "Please pass the ID of the process to enumerate as the only parameter."
  ++ LF.

Definition usage_base10 : list Z :=
  L "Please pass the ID of the process to enumerate as an integer in base 10."
  ++ LF.

(** The line the listing shows for one module. *)
Definition module_line (moduleInfo : ModuleInfo) : list Z :=
  L " - " ++ Name moduleInfo ++ L "  (" ++ decimal (Size moduleInfo)
  ++ L " bytes)" ++ LF.

(** The listing of a successful run, after the banner. *)
Definition listing (processID : Z) (moduleList : list ModuleInfo) : list Z :=
  (L " Module List for Process ID = " ++ decimal processID ++ LF)
  ++ (L " ========================================" ++ LF ++ LF)
  ++ concat (map module_line moduleList).

Definition msg_init : string :=
  "Cannot init the module enumeration process (CreateToolhelp32Snapshot failed).".

Definition msg_unexpected : string :=
  "Unexpected termination of the module enumeration process.".

(** A world to run the program in: process 4242 with two modules, process
    7 whose walk breaks off with code 5 after one module, process 4 that
    cannot be opened, and process 9 without modules. *)
Module Fixture.

Definition entry (name : string) (size : Z) : MODULEENTRY32 :=
  {| dwSize := sizeof_MODULEENTRY32;
     th32ModuleID := 1; th32ProcessID := 4242;
     GlblcntUsage := 65535; ProccntUsage := 65535;
     modBaseAddr := 4194304; modBaseSize := size; hModule := 4194304;
     szModule := wchar_array (S MAX_MODULE_NAME32) (L name ++ [0; 120; 120]);
     szExePath := wchar_array MAX_PATH (L name ++ [0]) |}.

Definition world : World :=
  {| processes :=
       <[ 4242 := Modules [entry "alpha.dll" 1024; entry "beta.dll" 2048]
                          ERROR_NO_MORE_FILES ]>
       (<[ 7 := Modules [entry "gamma.dll" 512] 5 ]>
       (<[ 4 := Refused 5 ]>
       (<[ 9 := Modules [] ERROR_NO_MORE_FILES ]> ∅)));
     handles := ∅;
     last_error := 0;
     calls := [];
     console := [] |}.

End Fixture.

(** The entries [Module32Next] would still hand out on a handle; none
    when the handle is not open. *)
Definition pending_entries (hSnapshot : Z) (w : World) : list MODULEENTRY32 :=
  match handles w !! hSnapshot with
  | Some c => cur_rest c
  | None => []
  end.

(** The report [wmain] prints for a [Win32Error]. *)
Definition error_report (errorMessage : string) (errorCode : Z) : list Z :=
  (L "*** ERROR: " ++ L errorMessage ++ LF)
  ++ (L "    (Error code: " ++ decimal errorCode ++ L ")" ++ LF).

(** A world in the middle of other work: a snapshot handle is open, the
    last call left [ERROR_NO_MORE_FILES], and the log and the console are
    not empty. *)
Definition busy_world : World :=
  {| processes := processes Fixture.world;
     handles := <[ 1 := {| cur_all := []; cur_rest := [];
                           cur_stop := ERROR_NO_MORE_FILES |} ]> ∅;
     last_error := ERROR_NO_MORE_FILES;
     calls := [call_CreateToolhelp32Snapshot TH32CS_SNAPMODULE 9 1;
               call_Module32First 1 false];
     console := L "earlier output" ++ LF |}.

(** An entry whose [szModule] is filled to its last element with ['A']
    and so holds no NUL; its [szExePath] starts with ['B'] and a NUL. *)
Definition unterminated_entry : MODULEENTRY32 :=
  {| dwSize := sizeof_MODULEENTRY32;
     th32ModuleID := 1; th32ProcessID := 13;
     GlblcntUsage := 65535; ProccntUsage := 65535;
     modBaseAddr := 4194304; modBaseSize := 4096; hModule := 4194304;
     szModule := repeat 65 (S MAX_MODULE_NAME32);
     szExePath := wchar_array MAX_PATH [66] |}.

(** A world whose process 13 has that entry as its only module. *)
Definition overrun_world : World :=
  {| processes := <[ 13 := Modules [unterminated_entry]
                                   ERROR_NO_MORE_FILES ]> ∅;
     handles := ∅;
     last_error := 0;
     calls := [];
     console := [] |}.

(* ===================================================================== *)
(** * The test double: basic facts *)
(* ===================================================================== *)

Lemma fresh_handle_valid w :
  fresh_handle w <> INVALID_HANDLE_VALUE /\ handles w !! fresh_handle w = None.
Proof.
  pose proof (is_fresh ({[ INVALID_HANDLE_VALUE; 0 ]} ∪ dom (handles w)))
    as Hfresh.
  fold (fresh_handle w) in Hfresh. split.
  - intros Heq. apply Hfresh. rewrite Heq. set_solver.
  - apply not_elem_of_dom. set_solver.
Qed.

(** The snapshot call fails exactly when the process table does not list
    a module set for the identifier. *)
Lemma CreateToolhelp32Snapshot_cases dwFlags pid w :
  (exists entries stop,
      processes w !! pid = Some (Modules entries stop) /\
      CreateToolhelp32Snapshot dwFlags pid w =
        (fresh_handle w,
         log_call (call_CreateToolhelp32Snapshot dwFlags pid (fresh_handle w))
           (set_handles
              (<[fresh_handle w :=
                   {| cur_all := snapshot_modules dwFlags entries;
                      cur_rest := snapshot_modules dwFlags entries;
                      cur_stop := stop |}]> (handles w)) w)))
  \/
  (exists error,
      (processes w !! pid = Some (Refused error) \/
       processes w !! pid = None /\ error = ERROR_INVALID_PARAMETER) /\
      CreateToolhelp32Snapshot dwFlags pid w =
        (INVALID_HANDLE_VALUE,
         log_call (call_CreateToolhelp32Snapshot dwFlags pid
                     INVALID_HANDLE_VALUE)
           (set_last_error error w))).
Proof.
  unfold CreateToolhelp32Snapshot.
  destruct (processes w !! pid) as [[error|entries stop]|].
  - right. exists error. split; [left|]; reflexivity.
  - left. exists entries, stop. split; reflexivity.
  - right. exists ERROR_INVALID_PARAMETER. split; [right|]; split; reflexivity.
Qed.

Lemma ModuleInfo_of_filled_entry lpme found :
  ModuleInfo_of_entry (fill_entry lpme found) = ModuleInfo_of_entry found.
Proof. reflexivity. Qed.

(* ===================================================================== *)
(** * The enumeration loop *)
(* ===================================================================== *)

Lemma enumeration_loop_false hEnum moduleEntry moduleList w :
  enumeration_loop hEnum false moduleEntry moduleList w = (moduleList, w).
Proof. now simp enumeration_loop. Qed.

(** One turn of the loop. *)
Lemma enumeration_loop_true hEnum moduleEntry moduleList w :
  enumeration_loop hEnum true moduleEntry moduleList w =
  let '((continueEnumeration, moduleEntry'), w') :=
    Module32Next hEnum moduleEntry w in
  enumeration_loop hEnum continueEnumeration moduleEntry'
    (push_back moduleList (ModuleInfo_of_entry moduleEntry)) w'.
Proof.
  simp enumeration_loop.
  generalize (inspect (Module32Next hEnum moduleEntry w)).
  intros [[[c e'] w'] Hnext]. cbn. rewrite Hnext. reflexivity.
Qed.

(** The loop entered with an entry in hand, on a snapshot that still has
    [rest] to hand out: it records the entry in hand and then [rest], in
    order, and it leaves when the snapshot reports its stop code. *)
Lemma enumeration_loop_walk hEnum all stop rest :
  forall moduleEntry moduleList w,
    handles w !! hEnum =
      Some {| cur_all := all; cur_rest := rest; cur_stop := stop |} ->
    enumeration_loop hEnum true moduleEntry moduleList w =
      (moduleList ++ ModuleInfo_of_entry moduleEntry
                  :: map ModuleInfo_of_entry rest,
       {| processes := processes w;
          handles := <[hEnum := {| cur_all := all; cur_rest := [];
                                   cur_stop := stop |}]> (handles w);
          last_error := stop;
          calls := calls w ++ repeat (call_Module32Next hEnum true)
                                     (length rest)
                           ++ [call_Module32Next hEnum false];
          console := console w |}).
Proof.
  induction rest as [|found rest IH]; intros moduleEntry moduleList w Hopen.
  - rewrite enumeration_loop_true.
    unfold Module32Next, fetch_entry. rewrite Hopen. cbn.
    rewrite enumeration_loop_false. reflexivity.
  - rewrite enumeration_loop_true.
    unfold Module32Next, fetch_entry. rewrite Hopen. cbn.
    erewrite IH by (cbn; apply lookup_insert_eq).
    rewrite ModuleInfo_of_filled_entry. cbn.
    rewrite insert_insert_eq. unfold push_back.
    rewrite <- !app_assoc. reflexivity.
Qed.

(* ===================================================================== *)
(** * Scoped ownership *)
(* ===================================================================== *)

(** Whatever the block does and however it is left, the scope ends the
    way the block did, and [CloseHandle] has then been called on the
    handle the object owns. *)
Lemma scope_closes {A} (h : Z) (block : ScopedHandle -> Cpp A) (w : World) :
  scope (ScopedHandle_ctor h) block w =
    (fst (block (ScopedHandle_ctor h) w),
     snd (CloseHandle h (snd (block (ScopedHandle_ctor h) w)))).
Proof.
  unfold scope, ScopedHandle_dtor.
  destruct (block (ScopedHandle_ctor h) w) as [r w1]. cbn [fst snd m_handle].
  cbn [ScopedHandle_ctor m_handle].
  destruct (CloseHandle h w1) as [closedOk w2]. reflexivity.
Qed.

(* ===================================================================== *)
(** * GetModuleListInProcess, path by path *)
(* ===================================================================== *)

(** The snapshot call failed: the function throws at once, with the
    last-error code as the failed call left it. *)
Lemma GetModuleListInProcess_invalid processID w w1 :
  CreateToolhelp32Snapshot TH32CS_SNAPMODULE processID w
    = (INVALID_HANDLE_VALUE, w1) ->
  GetModuleListInProcess processID w
    = (Throw (Win32Error msg_init (last_error w1)), w1).
Proof.
  intros Hcreate. unfold GetModuleListInProcess, bind, sys.
  rewrite Hcreate. reflexivity.
Qed.

(** The snapshot call succeeded: first fetch, loop, the test of the
    last-error code, and the destructor of the scoped handle on the way
    out, whichever way that is. *)
Lemma GetModuleListInProcess_valid processID w hEnum w1 :
  CreateToolhelp32Snapshot TH32CS_SNAPMODULE processID w = (hEnum, w1) ->
  hEnum <> INVALID_HANDLE_VALUE ->
  GetModuleListInProcess processID w =
    let '((continueEnumeration, moduleEntry), w2) :=
      Module32First hEnum MODULEENTRY32_init w1 in
    let '(moduleList, w3) :=
      enumeration_loop hEnum continueEnumeration moduleEntry [] w2 in
    (if last_error w3 =? ERROR_NO_MORE_FILES
     then Return moduleList
     else Throw (Win32Error msg_unexpected (last_error w3)),
     snd (CloseHandle hEnum w3)).
Proof.
  intros Hcreate Hvalid. unfold GetModuleListInProcess, bind, sys at 1.
  rewrite Hcreate.
  destruct (Z.eqb_spec hEnum INVALID_HANDLE_VALUE) as [|_]; [contradiction|].
  unfold ret at 1, scope, ScopedHandle_dtor, ScopedHandle_ctor, Get, sys.
  cbn [m_handle].
  destruct (Module32First hEnum MODULEENTRY32_init w1)
    as [[continueEnumeration moduleEntry] w2].
  destruct (enumeration_loop hEnum continueEnumeration moduleEntry [] w2)
    as [moduleList w3].
  unfold GetLastError.
  destruct (CloseHandle hEnum w3) as [closedOk w4] eqn:Hclose.
  destruct (last_error w3 =? ERROR_NO_MORE_FILES); cbn; rewrite Hclose;
    reflexivity.
Qed.

(** The whole run on a process the double can snapshot. *)
Lemma GetModuleListInProcess_modules processID w entries stop :
  processes w !! processID = Some (Modules entries stop) ->
  GetModuleListInProcess processID w =
    (if stop =? ERROR_NO_MORE_FILES
     then Return (map ModuleInfo_of_entry entries)
     else Throw (Win32Error msg_unexpected stop),
     {| processes := processes w;
        handles := handles w;
        last_error := stop;
        calls := calls w
                 ++ call_CreateToolhelp32Snapshot TH32CS_SNAPMODULE processID
                      (fresh_handle w)
                 :: walk_calls (fresh_handle w) (length entries)
                 ++ [call_CloseHandle (fresh_handle w) true];
        console := console w |}).
Proof.
  intros Hproc.
  destruct (fresh_handle_valid w) as [Hvalid Hfree].
  assert (Hcreate :
    CreateToolhelp32Snapshot TH32CS_SNAPMODULE processID w =
      (fresh_handle w,
       log_call (call_CreateToolhelp32Snapshot TH32CS_SNAPMODULE processID
                   (fresh_handle w))
         (set_handles
            (<[fresh_handle w :=
                 {| cur_all := entries; cur_rest := entries;
                    cur_stop := stop |}]> (handles w)) w))).
  { unfold CreateToolhelp32Snapshot. rewrite Hproc. reflexivity. }
  rewrite (GetModuleListInProcess_valid _ _ _ _ Hcreate Hvalid).
  set (h := fresh_handle w) in *.
  unfold Module32First, fetch_entry. cbn [handles log_call set_handles].
  rewrite lookup_insert_eq. cbn [cur_all cur_rest cur_stop].
  destruct entries as [|first rest].
  - rewrite enumeration_loop_false. unfold CloseHandle. cbn.
    rewrite lookup_insert_eq. cbn.
    rewrite insert_insert_eq, delete_insert_eq, (delete_id _ _ Hfree).
    unfold log_call, set_handles, set_last_error. cbn.
    rewrite <- ?app_assoc. reflexivity.
  - erewrite enumeration_loop_walk by (cbn; apply lookup_insert_eq).
    rewrite ModuleInfo_of_filled_entry.
    unfold CloseHandle. cbn.
    rewrite lookup_insert_eq. cbn.
    rewrite !insert_insert_eq, delete_insert_eq, (delete_id _ _ Hfree).
    unfold log_call, set_handles, set_last_error. cbn.
    rewrite <- ?app_assoc. reflexivity.
Qed.

(** The whole run on a process the double refuses to snapshot. *)
Lemma GetModuleListInProcess_refused processID w error :
  processes w !! processID = Some (Refused error) \/
  processes w !! processID = None /\ error = ERROR_INVALID_PARAMETER ->
  GetModuleListInProcess processID w =
    (Throw (Win32Error msg_init error),
     {| processes := processes w;
        handles := handles w;
        last_error := error;
        calls := calls w
                 ++ [call_CreateToolhelp32Snapshot TH32CS_SNAPMODULE processID
                       INVALID_HANDLE_VALUE];
        console := console w |}).
Proof.
  intros Hproc.
  rewrite (GetModuleListInProcess_invalid processID w
             (log_call (call_CreateToolhelp32Snapshot TH32CS_SNAPMODULE
                          processID INVALID_HANDLE_VALUE)
                (set_last_error error w))).
  - reflexivity.
  - unfold CreateToolhelp32Snapshot.
    destruct Hproc as [-> | [-> ->]]; reflexivity.
Qed.

(** The outcome is a function of what the double holds for the process
    identifier: nothing else in the world is read. *)
Lemma GetModuleListInProcess_outcome processID w w' :
  processes w !! processID = processes w' !! processID ->
  fst (GetModuleListInProcess processID w)
  = fst (GetModuleListInProcess processID w').
Proof.
  intros Hsame.
  destruct (processes w !! processID) as [[error|entries stop]|] eqn:Hproc;
    symmetry in Hsame.
  - rewrite (GetModuleListInProcess_refused _ w error) by auto.
    rewrite (GetModuleListInProcess_refused _ w' error) by auto.
    reflexivity.
  - rewrite (GetModuleListInProcess_modules _ w entries stop) by auto.
    rewrite (GetModuleListInProcess_modules _ w' entries stop) by auto.
    reflexivity.
  - rewrite (GetModuleListInProcess_refused _ w ERROR_INVALID_PARAMETER)
      by auto.
    rewrite (GetModuleListInProcess_refused _ w' ERROR_INVALID_PARAMETER)
      by auto.
    reflexivity.
Qed.

(** What a run leaves behind: the process table, the set of open handles
    and the console are as before. *)
Lemma GetModuleListInProcess_frame processID w :
  let w' := snd (GetModuleListInProcess processID w) in
  processes w' = processes w /\ handles w' = handles w
  /\ console w' = console w.
Proof.
  destruct (processes w !! processID) as [[error|entries stop]|] eqn:Hproc.
  - rewrite (GetModuleListInProcess_refused _ w error) by auto. cbn. auto.
  - rewrite (GetModuleListInProcess_modules _ w entries stop) by auto.
    cbn. auto.
  - rewrite (GetModuleListInProcess_refused _ w ERROR_INVALID_PARAMETER)
      by auto.
    cbn. auto.
Qed.

Lemma opened_walk_calls h n : opened (walk_calls h n) = [].
Proof.
  destruct n as [|k]; [reflexivity|]. cbn.
  induction k as [|k IH]; [reflexivity|exact IH].
Qed.

Lemma closed_walk_calls h n : closed (walk_calls h n) = [].
Proof.
  destruct n as [|k]; [reflexivity|]. cbn.
  induction k as [|k IH]; [reflexivity|exact IH].
Qed.

(** A name the OS stored with its terminator is read back as it is. *)
Lemma wstring_of_c_str_terminated (name junk : list Z) :
  Forall (fun c => c <> 0) name ->
  wstring_of_c_str (name ++ 0 :: junk) = name.
Proof.
  induction 1 as [|c name Hc _ IH]; [reflexivity|]. cbn.
  destruct (Z.eqb_spec c 0); [contradiction|]. now rewrite IH.
Qed.

(* ===================================================================== *)
(** * The lister: statements *)
(* ===================================================================== *)

(** C1. Once the loop is left, the last-error code decides: the call
    returns the list gathered when the code is [ERROR_NO_MORE_FILES], and
    for every other code it throws a [Win32Error] whose text is
    "Unexpected termination of the module enumeration process." and whose
    error code is that last-error code. *)
Theorem loop_exit_code_decides (processID : Z) (w : World) :
  let hEnum := fst (CreateToolhelp32Snapshot TH32CS_SNAPMODULE processID w) in
  let w1 := snd (CreateToolhelp32Snapshot TH32CS_SNAPMODULE processID w) in
  hEnum <> INVALID_HANDLE_VALUE ->
  let moduleList := fst (enumeration hEnum w1) in
  let lastError := last_error (snd (enumeration hEnum w1)) in
  fst (GetModuleListInProcess processID w) =
    if lastError =? ERROR_NO_MORE_FILES
    then Return moduleList
    else Throw (Win32Error
                  "Unexpected termination of the module enumeration process."
                  lastError).
Proof.
  intros hEnum w1 Hvalid. subst hEnum w1.
  destruct (CreateToolhelp32Snapshot TH32CS_SNAPMODULE processID w)
    as [hEnum w1] eqn:Hcreate.
  cbn [fst snd] in *.
  rewrite (GetModuleListInProcess_valid _ _ _ _ Hcreate Hvalid).
  unfold enumeration.
  destruct (Module32First hEnum MODULEENTRY32_init w1) as [[c e] w2].
  destruct (enumeration_loop hEnum c e [] w2) as [moduleList w3].
  reflexivity.
Qed.

Lemma loop_exit_code_decides_witness :
  fst (CreateToolhelp32Snapshot TH32CS_SNAPMODULE 7 Fixture.world)
    <> INVALID_HANDLE_VALUE
  /\ fst (GetModuleListInProcess 7 Fixture.world) =
     Throw (Win32Error
              "Unexpected termination of the module enumeration process." 5).
Proof.
  assert (Hvalid :
    fst (CreateToolhelp32Snapshot TH32CS_SNAPMODULE 7 Fixture.world)
      <> INVALID_HANDLE_VALUE) by (vm_compute; discriminate).
  split; [exact Hvalid|].
  exact (loop_exit_code_decides 7 Fixture.world Hvalid).
Defined.

(** C2. When the snapshot call succeeds, the calls the function adds to
    the log show that one handle opened and that one handle passed to
    [CloseHandle], once, and the handle is not open afterwards. Nothing
    is assumed about the way the function is left: the statement covers
    the normal return and the exception alike. *)
Theorem handle_closed_exactly_once (processID : Z) (w : World) :
  let hEnum := fst (CreateToolhelp32Snapshot TH32CS_SNAPMODULE processID w) in
  let w' := snd (GetModuleListInProcess processID w) in
  hEnum <> INVALID_HANDLE_VALUE ->
  exists trace,
    calls w' = calls w ++ trace
    /\ opened trace = [hEnum]
    /\ closed trace = [hEnum]
    /\ handles w' !! hEnum = None.
Proof.
  intros hEnum w' Hvalid. subst hEnum w'.
  destruct (CreateToolhelp32Snapshot_cases TH32CS_SNAPMODULE processID w)
    as [(entries & stop & Hproc & Hcreate) | (error & _ & Hcreate)];
    rewrite Hcreate in *; cbn [fst] in *; [|contradiction].
  rewrite (GetModuleListInProcess_modules _ _ _ _ Hproc). cbn [snd calls handles].
  eexists. split; [reflexivity|].
  destruct (fresh_handle_valid w) as [_ Hfree].
  unfold opened, closed. cbn [omap list_omap].
  rewrite !omap_app. fold (opened (walk_calls (fresh_handle w) (length entries))).
  fold (closed (walk_calls (fresh_handle w) (length entries))).
  rewrite opened_walk_calls, closed_walk_calls. cbn.
  destruct (Z.eqb_spec (fresh_handle w) INVALID_HANDLE_VALUE);
    [contradiction|].
  auto.
Qed.

Lemma handle_closed_exactly_once_witness :
  fst (CreateToolhelp32Snapshot TH32CS_SNAPMODULE 7 Fixture.world)
    <> INVALID_HANDLE_VALUE
  /\ exists trace,
       calls (snd (GetModuleListInProcess 7 Fixture.world))
         = calls Fixture.world ++ trace
       /\ opened trace = [1] /\ closed trace = [1]
       /\ handles (snd (GetModuleListInProcess 7 Fixture.world)) !! 1 = None.
Proof.
  assert (Hvalid :
    fst (CreateToolhelp32Snapshot TH32CS_SNAPMODULE 7 Fixture.world)
      <> INVALID_HANDLE_VALUE) by (vm_compute; discriminate).
  split; [exact Hvalid|].
  exact (handle_closed_exactly_once 7 Fixture.world Hvalid).
Defined.

(** The units in front of the first NUL are what the conversion gives. *)
Lemma wstring_of_c_str_first_NUL (name rest : list Z) :
  0 ∉ name -> wstring_of_c_str (name ++ 0 :: rest) = name.
Proof.
  intros Hname. apply wstring_of_c_str_terminated, Forall_forall.
  intros c Hc ->. contradiction.
Qed.

(** The name of a record built from an entry whose [szModule] holds a
    terminated name is that name, whatever follows the terminator. *)
Lemma ModuleInfo_of_entry_terminated (entry : MODULEENTRY32)
    (name junk : list Z) :
  szModule entry = name ++ 0 :: junk ->
  0 ∉ name ->
  Name (ModuleInfo_of_entry entry) = name.
Proof.
  intros Hbuf Hname. unfold ModuleInfo_of_entry. cbn [Name ModuleInfo_ctor].
  rewrite Hbuf, <- app_assoc. cbn [app].
  now apply wstring_of_c_str_first_NUL.
Qed.

(** C3. For a process whose snapshot holds the entries [entries] and ends
    with "no more entries", the call returns as many records as there
    are entries, in their order: the record at each position carries the
    [modBaseSize] of the entry at that position and its name, that is,
    for an entry whose [szModule] holds the units [name] (none of them
    NUL), then the terminating NUL, then anything, the record's name is
    [name]. *)
Theorem modules_listed_in_order (processID : Z) (w : World)
    (entries : list MODULEENTRY32) :
  processes w !! processID = Some (Modules entries ERROR_NO_MORE_FILES) ->
  exists moduleList,
    fst (GetModuleListInProcess processID w) = Return moduleList
    /\ length moduleList = length entries
    /\ forall (i : nat) (entry : MODULEENTRY32),
         entries !! i = Some entry ->
         exists moduleInfo,
           moduleList !! i = Some moduleInfo
           /\ Size moduleInfo = modBaseSize entry
           /\ forall name junk : list Z,
                szModule entry = name ++ 0 :: junk ->
                (0 ∉ name) ->
                Name moduleInfo = name.
Proof.
  intros Hproc.
  rewrite (GetModuleListInProcess_modules _ _ _ _ Hproc).
  exists (map ModuleInfo_of_entry entries). cbn [fst].
  split; [reflexivity|]. split; [apply length_map|].
  intros i entry Hentry. exists (ModuleInfo_of_entry entry).
  split; [|split].
  - rewrite list_lookup_fmap, Hentry. reflexivity.
  - reflexivity.
  - intros name junk. apply ModuleInfo_of_entry_terminated.
Qed.

Lemma modules_listed_in_order_witness :
  processes Fixture.world !! 4242
    = Some (Modules [Fixture.entry "alpha.dll" 1024;
                     Fixture.entry "beta.dll" 2048] ERROR_NO_MORE_FILES)
  /\ exists moduleList,
       fst (GetModuleListInProcess 4242 Fixture.world) = Return moduleList
       /\ length moduleList = 2%nat
       /\ (exists first,
              moduleList !! 0%nat = Some first
              /\ Name first = L "alpha.dll" /\ Size first = 1024)
       /\ (exists second,
              moduleList !! 1%nat = Some second
              /\ Name second = L "beta.dll" /\ Size second = 2048).
Proof.
  split; [reflexivity|].
  destruct (modules_listed_in_order 4242 Fixture.world
              [Fixture.entry "alpha.dll" 1024; Fixture.entry "beta.dll" 2048]
              eq_refl)
    as (moduleList & Hreturn & Hlength & Hat).
  exists moduleList. split; [exact Hreturn|]. split; [exact Hlength|].
  split.
  - destruct (Hat 0%nat (Fixture.entry "alpha.dll" 1024) eq_refl)
      as (first & Hfirst & Hsize & Hname).
    exists first. split; [exact Hfirst|]. split; [|exact Hsize].
    apply (Hname (L "alpha.dll")
             (120 :: 120 :: repeat 0 (S MAX_MODULE_NAME32 - 12))).
    + reflexivity.
    + apply (bool_decide_unpack _). vm_compute. exact I.
  - destruct (Hat 1%nat (Fixture.entry "beta.dll" 2048) eq_refl)
      as (second & Hsecond & Hsize & Hname).
    exists second. split; [exact Hsecond|]. split; [|exact Hsize].
    apply (Hname (L "beta.dll")
             (120 :: 120 :: repeat 0 (S MAX_MODULE_NAME32 - 11))).
    + reflexivity.
    + apply (bool_decide_unpack _). vm_compute. exact I.
Defined.

(** C4. When the snapshot call answers [INVALID_HANDLE_VALUE], the
    function throws at once: a [Win32Error] whose text names the failed
    step and whose code is the last-error code that call left; no list
    is returned and no further call is made: the world is the one the
    failed call left. *)
Theorem snapshot_failure_throws (processID : Z) (w : World) :
  let hEnum := fst (CreateToolhelp32Snapshot TH32CS_SNAPMODULE processID w) in
  let w1 := snd (CreateToolhelp32Snapshot TH32CS_SNAPMODULE processID w) in
  hEnum = INVALID_HANDLE_VALUE ->
  GetModuleListInProcess processID w =
    (Throw (Win32Error
              "Cannot init the module enumeration process (CreateToolhelp32Snapshot failed)."
              (last_error w1)),
     w1).
Proof.
  intros hEnum w1 Hinvalid. subst hEnum w1.
  destruct (CreateToolhelp32Snapshot TH32CS_SNAPMODULE processID w)
    as [hEnum w1] eqn:Hcreate.
  cbn [fst snd] in *. subst hEnum.
  exact (GetModuleListInProcess_invalid _ _ _ Hcreate).
Qed.

Lemma snapshot_failure_throws_witness :
  fst (CreateToolhelp32Snapshot TH32CS_SNAPMODULE 31337 Fixture.world)
    = INVALID_HANDLE_VALUE
  /\ fst (GetModuleListInProcess 31337 Fixture.world) =
     Throw (Win32Error
              "Cannot init the module enumeration process (CreateToolhelp32Snapshot failed)."
              ERROR_INVALID_PARAMETER)
  /\ calls (snd (GetModuleListInProcess 31337 Fixture.world)) =
     [call_CreateToolhelp32Snapshot TH32CS_SNAPMODULE 31337
        INVALID_HANDLE_VALUE].
Proof.
  split; [reflexivity|].
  rewrite (snapshot_failure_throws 31337 Fixture.world eq_refl).
  split; reflexivity.
Defined.

(** C5. When the snapshot opens and the first fetch finds no entry and
    leaves [ERROR_NO_MORE_FILES], the function returns the empty list. *)
Theorem no_modules_is_success (processID : Z) (w : World) :
  let hEnum := fst (CreateToolhelp32Snapshot TH32CS_SNAPMODULE processID w) in
  let w1 := snd (CreateToolhelp32Snapshot TH32CS_SNAPMODULE processID w) in
  hEnum <> INVALID_HANDLE_VALUE ->
  fst (fst (Module32First hEnum MODULEENTRY32_init w1)) = false ->
  last_error (snd (Module32First hEnum MODULEENTRY32_init w1))
    = ERROR_NO_MORE_FILES ->
  fst (GetModuleListInProcess processID w) = Return [].
Proof.
  intros hEnum w1 Hvalid Hnone Hcode. subst hEnum w1.
  destruct (CreateToolhelp32Snapshot TH32CS_SNAPMODULE processID w)
    as [hEnum w1] eqn:Hcreate.
  cbn [fst snd] in *.
  rewrite (GetModuleListInProcess_valid _ _ _ _ Hcreate Hvalid).
  destruct (Module32First hEnum MODULEENTRY32_init w1)
    as [[continueEnumeration moduleEntry] w2].
  cbn [fst snd] in *. subst continueEnumeration.
  rewrite enumeration_loop_false. cbn [fst]. rewrite Hcode. reflexivity.
Qed.

Lemma no_modules_is_success_witness :
  fst (GetModuleListInProcess 9 Fixture.world) = Return [].
Proof.
  apply (no_modules_is_success 9 Fixture.world).
  - vm_compute. discriminate.
  - reflexivity.
  - reflexivity.
Defined.

(** C9. A second call right after a first one, for the same process
    identifier, ends the way the first did, with the same list or the
    same exception; and a call leaves the process table, the set of open
    handles and the console as it found them. What differs afterwards is
    the thread's last-error code, set by the system calls, and the log of
    the calls made. *)
Theorem second_call_same_result (processID : Z) (w : World) :
  let w1 := snd (GetModuleListInProcess processID w) in
  fst (GetModuleListInProcess processID w1)
    = fst (GetModuleListInProcess processID w)
  /\ processes w1 = processes w
  /\ handles w1 = handles w
  /\ console w1 = console w.
Proof.
  intros w1.
  destruct (GetModuleListInProcess_frame processID w) as (Hp & Hh & Hc).
  fold w1 in Hp, Hh, Hc.
  split; [|auto].
  apply GetModuleListInProcess_outcome. now rewrite Hp.
Qed.

(* ===================================================================== *)
(** * wmain, path by path *)
(* ===================================================================== *)

Lemma write_console_app (a b : list Z) (w : World) :
  write_console b (write_console a w) = write_console (a ++ b) w.
Proof. unfold write_console. cbn. now rewrite app_assoc. Qed.

Lemma write_console_nil (w : World) : write_console [] w = w.
Proof. destruct w. unfold write_console. cbn. now rewrite app_nil_r. Qed.

Lemma print_module_list_console (moduleList : list ModuleInfo) (w : World) :
  print_module_list moduleList w =
    (Return tt, write_console (concat (map module_line moduleList)) w).
Proof.
  revert w. induction moduleList as [|moduleInfo rest IH]; intros w.
  - cbn. now rewrite write_console_nil.
  - cbn [print_module_list]. unfold bind, sys, wcout.
    rewrite IH, write_console_app. reflexivity.
Qed.

(** Every exception that reaches the handlers is reported on the console
    with its [what()] text, and turned into the exit status 1. *)
Lemma wmain_catch_reports (e : exception) (w : World) :
  exists rest,
    wmain_catch e w =
      (Return kExitError,
       write_console (L "*** ERROR: " ++ L (what e) ++ LF ++ rest) w).
Proof.
  destruct e as [errorMessage errorCode | message].
  - exists (L "    (Error code: " ++ decimal errorCode ++ L ")" ++ LF).
    unfold wmain_catch, bind, sys, wcout, ret.
    rewrite write_console_app. repeat rewrite <- app_assoc. reflexivity.
  - exists []. unfold wmain_catch, bind, sys, wcout, ret.
    repeat rewrite <- app_assoc. rewrite app_nil_r. reflexivity.
Qed.

Section WmainPaths.

Variable StrToInt64ExW : list Z -> Z -> option Z.

Lemma wmain_wrong_count (argc : Z) (argv : list (list Z)) (w : World) :
  argc <> 2 ->
  wmain StrToInt64ExW argc argv w =
    (Return kExitError, write_console (banner ++ usage_count) w).
Proof.
  intros Hargc. unfold wmain, try_catch, wmain_try, bind, sys, wcout.
  destruct (Z.eqb_spec argc 2) as [|_]; [contradiction|].
  cbn [negb]. unfold ret. rewrite !write_console_app. reflexivity.
Qed.

Lemma wmain_not_a_number (argv : list (list Z)) (w : World) :
  StrToInt64ExW (argv_at argv 1) STIF_DEFAULT = None ->
  wmain StrToInt64ExW 2 argv w =
    (Return kExitError, write_console (banner ++ usage_base10) w).
Proof.
  intros Hparse. unfold wmain, try_catch, wmain_try, bind, sys, wcout.
  cbn [Z.eqb Pos.eqb negb]. rewrite Hparse.
  unfold ret. rewrite !write_console_app. reflexivity.
Qed.

(** With a number in hand, the run is the run of the lister on the low
    32 bits of the number, followed by the listing or by the handler. *)
Lemma wmain_number (argv : list (list Z)) (w : World) (llResult : Z) :
  StrToInt64ExW (argv_at argv 1) STIF_DEFAULT = Some llResult ->
  wmain StrToInt64ExW 2 argv w =
    match GetModuleListInProcess (static_cast_DWORD llResult)
            (write_console banner w) with
    | (Return moduleList, w1) =>
        (Return kExitOk,
         write_console (listing (static_cast_DWORD llResult) moduleList) w1)
    | (Throw e, w1) => wmain_catch e w1
    end.
Proof.
  intros Hparse. unfold wmain, try_catch, wmain_try, bind at 1 2, sys, wcout.
  cbn [Z.eqb Pos.eqb negb]. rewrite Hparse.
  rewrite write_console_app. fold banner.
  unfold bind at 1.
  destruct (GetModuleListInProcess (static_cast_DWORD llResult)
              (write_console banner w)) as [[moduleList|e] w1];
    [|reflexivity].
  unfold bind. rewrite print_module_list_console.
  unfold ret. rewrite !write_console_app. unfold listing.
  repeat rewrite <- app_assoc. reflexivity.
Qed.

End WmainPaths.

(* ===================================================================== *)
(** * wmain: statements *)
(* ===================================================================== *)

Section WmainStatements.

Variable StrToInt64ExW : list Z -> Z -> option Z.

(** C6. [wmain] always returns, with status 0 or 1, and no exception
    leaves it. The four ways a run can go: a wrong argument count and an
    argument that is not a number end with status 1 and the usage text;
    an exception of the lister ends with status 1 and a report that
    shows its [what()] text; a list returned by the lister ends with
    status 0 and the listing. Status 0 is only on the last of these.
    And the handlers turn every exception, of either kind, into a
    report with its [what()] text and status 1. *)
Theorem exit_status_reflects_outcome (argc : Z) (argv : list (list Z))
    (w : World) :
  (forall (e : exception) (w0 : World),
      exists rest,
        wmain_catch e w0 =
          (Return 1,
           write_console (L "*** ERROR: " ++ L (what e) ++ LF ++ rest) w0))
  /\ exists (status : Z) (w' : World),
       wmain StrToInt64ExW argc argv w = (Return status, w')
       /\ ((argc <> 2 /\ status = 1
            /\ console w' = console w ++ banner ++ usage_count)
           \/ (argc = 2
               /\ StrToInt64ExW (argv_at argv 1) STIF_DEFAULT = None
               /\ status = 1
               /\ console w' = console w ++ banner ++ usage_base10)
           \/ (exists (llResult : Z) (e : exception),
                  argc = 2
                  /\ StrToInt64ExW (argv_at argv 1) STIF_DEFAULT
                     = Some llResult
                  /\ fst (GetModuleListInProcess
                            (static_cast_DWORD llResult) w) = Throw e
                  /\ status = 1
                  /\ exists rest,
                       console w' =
                         console w ++ banner ++ L "*** ERROR: "
                                   ++ L (what e) ++ LF ++ rest)
           \/ (exists (llResult : Z) (moduleList : list ModuleInfo),
                  argc = 2
                  /\ StrToInt64ExW (argv_at argv 1) STIF_DEFAULT
                     = Some llResult
                  /\ fst (GetModuleListInProcess
                            (static_cast_DWORD llResult) w)
                     = Return moduleList
                  /\ status = 0
                  /\ console w' =
                       console w ++ banner
                       ++ listing (static_cast_DWORD llResult) moduleList)).
Proof.
  split; [exact wmain_catch_reports|].
  destruct (Z.eq_dec argc 2) as [->|Hargc].
  2:{ rewrite wmain_wrong_count by assumption.
      do 2 eexists. split; [reflexivity|]. left. cbn. auto. }
  destruct (StrToInt64ExW (argv_at argv 1) STIF_DEFAULT)
    as [llResult|] eqn:Hparse.
  2:{ rewrite wmain_not_a_number by assumption.
      do 2 eexists. split; [reflexivity|]. right; left. cbn. auto. }
  rewrite (wmain_number _ _ _ _ Hparse).
  pose proof (GetModuleListInProcess_outcome (static_cast_DWORD llResult)
                (write_console banner w) w eq_refl) as Hsame.
  destruct (GetModuleListInProcess_frame (static_cast_DWORD llResult)
              (write_console banner w)) as (_ & _ & Hconsole).
  destruct (GetModuleListInProcess (static_cast_DWORD llResult)
              (write_console banner w)) as [[moduleList|e] w1];
    cbn [fst snd] in Hsame, Hconsole.
  - do 2 eexists. split; [reflexivity|]. right; right; right.
    exists llResult, moduleList. cbn [console write_console].
    rewrite Hconsole. cbn [console write_console].
    rewrite <- app_assoc. auto.
  - destruct (wmain_catch_reports e w1) as [rest ->].
    do 2 eexists. split; [reflexivity|]. right; right; left.
    exists llResult, e. repeat (split; [solve [auto]|]).
    exists rest. cbn [console write_console].
    rewrite Hconsole. cbn [console write_console].
    rewrite <- app_assoc. reflexivity.
Qed.

(** C7. With one argument that [StrToInt64ExW] does not convert, the
    run prints the banner and the base-10 guidance, returns 1, and
    makes no system call: no snapshot is asked for. *)
Theorem unparseable_argument_rejected (argv : list (list Z)) (w : World) :
  StrToInt64ExW (argv_at argv 1) STIF_DEFAULT = None ->
  wmain StrToInt64ExW 2 argv w
    = (Return 1, write_console (banner ++ usage_base10) w)
  /\ calls (snd (wmain StrToInt64ExW 2 argv w)) = calls w
  /\ handles (snd (wmain StrToInt64ExW 2 argv w)) = handles w.
Proof.
  intros Hparse. rewrite wmain_not_a_number by assumption.
  repeat split; reflexivity.
Qed.

(** C8. With an argument count other than one ([argc] other than 2, the
    program name included), the run prints the banner and the usage
    guidance, returns 1, and makes no system call. *)
Theorem wrong_argument_count_rejected (argc : Z) (argv : list (list Z))
    (w : World) :
  argc <> 2 ->
  wmain StrToInt64ExW argc argv w
    = (Return 1, write_console (banner ++ usage_count) w)
  /\ calls (snd (wmain StrToInt64ExW argc argv w)) = calls w
  /\ handles (snd (wmain StrToInt64ExW argc argv w)) = handles w.
Proof.
  intros Hargc. rewrite wmain_wrong_count by assumption.
  repeat split; reflexivity.
Qed.

(** C10. Whatever 64-bit value the conversion stores, negative or at or
    above 2^32, the run goes on to the enumeration, and the process
    identifier it asks the snapshot for is the value modulo 2^32: the
    first call the run adds to the log is [CreateToolhelp32Snapshot]
    for that identifier, and the run is the lister's run for it. *)
Theorem argument_truncated_to_DWORD (argv : list (list Z)) (w : World)
    (llResult : Z) :
  - 2^63 <= llResult < 2^63 ->
  StrToInt64ExW (argv_at argv 1) STIF_DEFAULT = Some llResult ->
  let processID := llResult mod 2^32 in
  0 <= processID < 2^32
  /\ (exists (hEnum : Z) (rest : list OsCall),
         calls (snd (wmain StrToInt64ExW 2 argv w)) =
           calls w
           ++ call_CreateToolhelp32Snapshot TH32CS_SNAPMODULE processID hEnum
           :: rest)
  /\ wmain StrToInt64ExW 2 argv w =
       match GetModuleListInProcess processID (write_console banner w) with
       | (Return moduleList, w1) =>
           (Return 0, write_console (listing processID moduleList) w1)
       | (Throw e, w1) => wmain_catch e w1
       end.
Proof.
  intros _ Hparse processID.
  split; [apply Z.mod_pos_bound; lia|].
  split; [|exact (wmain_number _ _ _ _ Hparse)].
  rewrite (wmain_number _ _ _ _ Hparse).
  fold processID. unfold static_cast_DWORD. fold processID.
  destruct (processes w !! processID) as [[error|entries stop]|] eqn:Hproc.
  - rewrite (GetModuleListInProcess_refused _ _ error) by (left; exact Hproc).
    destruct (wmain_catch_reports (Win32Error msg_init error)
                {| processes := processes (write_console banner w);
                   handles := handles (write_console banner w);
                   last_error := error;
                   calls := calls (write_console banner w)
                            ++ [call_CreateToolhelp32Snapshot
                                  TH32CS_SNAPMODULE processID
                                  INVALID_HANDLE_VALUE];
                   console := console (write_console banner w) |})
      as [rest ->].
    cbn. eauto.
  - rewrite (GetModuleListInProcess_modules _ _ entries stop)
      by exact Hproc.
    destruct (stop =? ERROR_NO_MORE_FILES).
    + cbn. eauto.
    + match goal with
      | |- context [wmain_catch ?e ?w0] =>
          destruct (wmain_catch_reports e w0) as [rest ->]
      end.
      cbn. eauto.
  - rewrite (GetModuleListInProcess_refused _ _ ERROR_INVALID_PARAMETER)
      by (right; split; [exact Hproc|reflexivity]).
    match goal with
    | |- context [wmain_catch ?e ?w0] =>
        destruct (wmain_catch_reports e w0) as [rest ->]
    end.
    cbn. eauto.
Qed.

End WmainStatements.

Lemma unparseable_argument_rejected_witness :
  Shlwapi.StrToInt64ExW (argv_at [L "ModuleList.exe"; L "abc"] 1) STIF_DEFAULT
    = None
  /\ wmain Shlwapi.StrToInt64ExW 2 [L "ModuleList.exe"; L "abc"] Fixture.world
     = (Return 1, write_console (banner ++ usage_base10) Fixture.world).
Proof.
  split; [reflexivity|].
  apply (unparseable_argument_rejected Shlwapi.StrToInt64ExW
           [L "ModuleList.exe"; L "abc"] Fixture.world).
  reflexivity.
Defined.

Lemma wrong_argument_count_rejected_witness :
  3 <> 2
  /\ wmain Shlwapi.StrToInt64ExW 3
       [L "ModuleList.exe"; L "4242"; L "7"] Fixture.world
     = (Return 1, write_console (banner ++ usage_count) Fixture.world).
Proof.
  split; [discriminate|].
  apply (wrong_argument_count_rejected Shlwapi.StrToInt64ExW 3
           [L "ModuleList.exe"; L "4242"; L "7"] Fixture.world).
  discriminate.
Defined.

Lemma argument_truncated_to_DWORD_witness :
  Shlwapi.StrToInt64ExW (argv_at [L "ModuleList.exe"; L "-1"] 1) STIF_DEFAULT
    = Some (-1)
  /\ exists (hEnum : Z) (rest : list OsCall),
       calls (snd (wmain Shlwapi.StrToInt64ExW 2
                     [L "ModuleList.exe"; L "-1"] Fixture.world)) =
         calls Fixture.world
         ++ call_CreateToolhelp32Snapshot TH32CS_SNAPMODULE 4294967295 hEnum
         :: rest.
Proof.
  split; [reflexivity|].
  apply (argument_truncated_to_DWORD Shlwapi.StrToInt64ExW
           [L "ModuleList.exe"; L "-1"] Fixture.world (-1)).
  - lia.
  - reflexivity.
Defined.


(* ===================================================================== *)
(** * Runs on the fixture *)
(* ===================================================================== *)

Example run_4242_lists_both_modules :
  let '(r, w) := wmain Shlwapi.StrToInt64ExW 2
                   [L "ModuleList.exe"; L "4242"] Fixture.world in
  r = Return 0
  /\ console w =
       banner
       ++ L " Module List for Process ID = 4242" ++ LF
       ++ L " ========================================" ++ LF ++ LF
       ++ L " - alpha.dll  (1024 bytes)" ++ LF
       ++ L " - beta.dll  (2048 bytes)" ++ LF
  /\ calls w =
       [call_CreateToolhelp32Snapshot 8 4242 1; call_Module32First 1 true;
        call_Module32Next 1 true; call_Module32Next 1 false;
        call_CloseHandle 1 true]
  /\ handles w = ∅.
Proof. vm_compute. repeat split; reflexivity. Qed.

Example run_7_reports_the_broken_walk :
  let '(r, w) := wmain Shlwapi.StrToInt64ExW 2
                   [L "ModuleList.exe"; L "7"] Fixture.world in
  r = Return 1
  /\ console w =
       banner
       ++ L "*** ERROR: Unexpected termination of the module enumeration process."
       ++ LF ++ L "    (Error code: 5)" ++ LF
  /\ closed (calls w) = [1]
  /\ handles w = ∅.
Proof. vm_compute. repeat split; reflexivity. Qed.

Example run_large_argument_wraps :
  fst (wmain Shlwapi.StrToInt64ExW 2
         [L "ModuleList.exe"; L "4294971538"] Fixture.world) = Return 0
  /\ static_cast_DWORD 4294971538 = 4242.
Proof. vm_compute. split; reflexivity. Qed.

Example run_without_arguments :
  let '(r, w) := wmain Shlwapi.StrToInt64ExW 1
                   [L "ModuleList.exe"] Fixture.world in
  r = Return 1 /\ calls w = [] /\ console w = banner ++ usage_count.
Proof. vm_compute. repeat split; reflexivity. Qed.

(* ===================================================================== *)
(** * Further properties of the lister *)
(* ===================================================================== *)

Lemma wstring_of_c_str_no_NUL (buf : list Z) : 0 ∉ wstring_of_c_str buf.
Proof.
  induction buf as [|c rest IH]; cbn.
  - apply not_elem_of_nil.
  - destruct (Z.eqb_spec c 0) as [|Hc]; [apply not_elem_of_nil|].
    apply not_elem_of_cons. split; [congruence|exact IH].
Qed.

Lemma wstring_of_c_str_prefix (buf : list Z) :
  wstring_of_c_str buf `prefix_of` buf.
Proof.
  induction buf as [|c rest IH]; cbn.
  - apply prefix_nil.
  - destruct (c =? 0); [apply prefix_nil|]. now apply prefix_cons.
Qed.

Lemma Forall_repeat_same {A} (P : A -> Prop) (x : A) (n : nat) :
  P x -> Forall P (repeat x n).
Proof. intros Hx. induction n; cbn; constructor; auto. Qed.

Lemma lister_trace_balanced (h pid : Z) (n : nat) :
  h <> INVALID_HANDLE_VALUE ->
  opened (call_CreateToolhelp32Snapshot TH32CS_SNAPMODULE pid h
          :: walk_calls h n ++ [call_CloseHandle h true]) = [h]
  /\ closed (call_CreateToolhelp32Snapshot TH32CS_SNAPMODULE pid h
             :: walk_calls h n ++ [call_CloseHandle h true]) = [h].
Proof.
  intros Hvalid. unfold opened, closed. cbn [omap list_omap].
  rewrite !omap_app.
  fold (opened (walk_calls h n)). fold (closed (walk_calls h n)).
  rewrite opened_walk_calls, closed_walk_calls. cbn.
  destruct (Z.eqb_spec h INVALID_HANDLE_VALUE); [contradiction|]. auto.
Qed.

(** X1. The loop entered with an entry in hand, on any handle and in any
    state of the system: it keeps what was gathered before in front,
    records the entry in hand next, and then every entry the snapshot
    still had to hand out, in order (none when the handle is not open);
    afterwards the snapshot has nothing left, and the console and the
    process table are untouched. *)
Theorem loop_records_in_hand_then_pending (hEnum : Z)
    (moduleEntry : MODULEENTRY32) (moduleList : list ModuleInfo)
    (w : World) :
  let r := enumeration_loop hEnum true moduleEntry moduleList w in
  fst r = moduleList
          ++ ModuleInfo_of_entry moduleEntry
          :: map ModuleInfo_of_entry (pending_entries hEnum w)
  /\ pending_entries hEnum (snd r) = []
  /\ console (snd r) = console w
  /\ processes (snd r) = processes w.
Proof.
  unfold pending_entries.
  destruct (handles w !! hEnum) as [[all rest stop]|] eqn:Hopen.
  - cbn zeta. rewrite (enumeration_loop_walk _ _ _ _ _ _ _ Hopen).
    cbn [fst snd handles console processes cur_rest].
    rewrite lookup_insert_eq. auto.
  - cbn zeta. rewrite enumeration_loop_true.
    unfold Module32Next, fetch_entry. rewrite Hopen.
    rewrite enumeration_loop_false. cbn. rewrite Hopen. auto.
Qed.

(** X2. A scope that owns a handle, around any block at all: the scope
    ends the way the block did, with a return value or with an exception
    of either kind; one [CloseHandle] call on the owned handle follows
    the calls of the block; afterwards that handle is not open and every
    other handle is as the block left it. *)
Theorem scope_releases_on_every_exit {A : Type} (h : Z)
    (block : ScopedHandle -> Cpp A) (w : World) :
  let w1 := snd (block (ScopedHandle_ctor h) w) in
  let w2 := snd (scope (ScopedHandle_ctor h) block w) in
  fst (scope (ScopedHandle_ctor h) block w)
    = fst (block (ScopedHandle_ctor h) w)
  /\ (exists closedOk : bool,
         calls w2 = calls w1 ++ [call_CloseHandle h closedOk])
  /\ handles w2 = delete h (handles w1)
  /\ console w2 = console w1.
Proof.
  cbn zeta. rewrite scope_closes. cbn [fst snd].
  destruct (block (ScopedHandle_ctor h) w) as [r w1]. cbn [fst snd].
  unfold CloseHandle.
  destruct (handles w1 !! h) as [c|] eqn:Hopen; cbn.
  - eauto.
  - rewrite (delete_id _ _ Hopen). eauto.
Qed.

(** X3. The calls of one run on a process that can be snapshotted, with
    [N] entries: the snapshot request, one [Module32First], then exactly
    [N] calls of [Module32Next], then [CloseHandle]; every one of them on
    the handle the request returned, a handle that was not open before;
    and nothing is called after the close. *)
Theorem lister_call_protocol (processID : Z) (w : World)
    (entries : list MODULEENTRY32) (stop : Z) :
  processes w !! processID = Some (Modules entries stop) ->
  exists (hEnum : Z) (firstOk : bool) (nexts : list OsCall),
    hEnum <> INVALID_HANDLE_VALUE
    /\ handles w !! hEnum = None
    /\ calls (snd (GetModuleListInProcess processID w)) =
         calls w
         ++ call_CreateToolhelp32Snapshot TH32CS_SNAPMODULE processID hEnum
         :: call_Module32First hEnum firstOk
         :: nexts ++ [call_CloseHandle hEnum true]
    /\ Forall (fun c => exists ok, c = call_Module32Next hEnum ok) nexts
    /\ length nexts = length entries.
Proof.
  intros Hproc. rewrite (GetModuleListInProcess_modules _ _ _ _ Hproc).
  destruct (fresh_handle_valid w) as [Hvalid Hfree].
  cbn [snd calls].
  destruct entries as [|first rest]; cbn [walk_calls length].
  - exists (fresh_handle w), false, []. repeat split; auto.
  - exists (fresh_handle w), true,
      (repeat (call_Module32Next (fresh_handle w) true) (length rest)
       ++ [call_Module32Next (fresh_handle w) false]).
    repeat split; auto.
    + apply Forall_app. split.
      * apply Forall_repeat_same. eauto.
      * constructor; [eauto|constructor].
    + rewrite length_app, repeat_length. cbn. lia.
Qed.

Lemma lister_call_protocol_witness :
  exists (hEnum : Z) (firstOk : bool) (nexts : list OsCall),
    hEnum <> INVALID_HANDLE_VALUE
    /\ handles Fixture.world !! hEnum = None
    /\ calls (snd (GetModuleListInProcess 4242 Fixture.world)) =
         calls Fixture.world
         ++ call_CreateToolhelp32Snapshot TH32CS_SNAPMODULE 4242 hEnum
         :: call_Module32First hEnum firstOk
         :: nexts ++ [call_CloseHandle hEnum true]
    /\ Forall (fun c => exists ok, c = call_Module32Next hEnum ok) nexts
    /\ length nexts = 2%nat.
Proof.
  exact (lister_call_protocol 4242 Fixture.world
           [Fixture.entry "alpha.dll" 1024; Fixture.entry "beta.dll" 2048]
           ERROR_NO_MORE_FILES eq_refl).
Defined.

(** X4. The way a call ends depends on nothing but what the system holds
    for the process identifier: a last-error code left by earlier calls,
    other open handles, the log and the console have no part in it. *)
Theorem outcome_ignores_leftover_state (processID : Z) (w w' : World) :
  processes w !! processID = processes w' !! processID ->
  fst (GetModuleListInProcess processID w)
  = fst (GetModuleListInProcess processID w').
Proof. exact (GetModuleListInProcess_outcome processID w w'). Qed.

Lemma outcome_ignores_leftover_state_witness :
  processes Fixture.world !! 7 = processes busy_world !! 7
  /\ fst (GetModuleListInProcess 7 busy_world) =
     Throw (Win32Error
              "Unexpected termination of the module enumeration process." 5).
Proof.
  split; [reflexivity|].
  rewrite <- (outcome_ignores_leftover_state 7 Fixture.world busy_world
                eq_refl).
  reflexivity.
Defined.

(** X5. Where a name ends. The entries have arrays of the declared
    sizes. For each entry of a returned list, if the units of [szModule]
    followed by those of [szExePath] are some units [name], none of them
    NUL, then a NUL, then anything, the record's name is [name]. So a
    [szModule] that holds a NUL gives the units in front of it, and a
    [szModule] filled to its last element gives all its units and then
    those of [szExePath] up to the first NUL there. *)
Theorem returned_names_are_c_strings (processID : Z) (w : World)
    (entries : list MODULEENTRY32) (stop : Z)
    (moduleList : list ModuleInfo) :
  processes w !! processID = Some (Modules entries stop) ->
  Forall MODULEENTRY32_wf entries ->
  fst (GetModuleListInProcess processID w) = Return moduleList ->
  Forall2 (fun moduleInfo entry =>
             forall name rest : list Z,
               szModule entry ++ szExePath entry = name ++ 0 :: rest ->
               (0 ∉ name) ->
               Name moduleInfo = name)
          moduleList entries.
Proof.
  intros Hproc _. rewrite (GetModuleListInProcess_modules _ _ _ _ Hproc).
  cbn [fst]. destruct (stop =? ERROR_NO_MORE_FILES); [|discriminate].
  intros [= <-]. apply Forall2_fmap_l, Forall_Forall2_diag, Forall_forall.
  intros entry _ name rest Hmemory Hname.
  unfold ModuleInfo_of_entry. cbn [Name ModuleInfo_ctor].
  rewrite Hmemory. now apply wstring_of_c_str_first_NUL.
Qed.

Lemma returned_names_are_c_strings_witness :
  Forall MODULEENTRY32_wf [unterminated_entry]
  /\ exists moduleInfo,
       fst (GetModuleListInProcess 13 overrun_world) = Return [moduleInfo]
       /\ Name moduleInfo = repeat 65 (S MAX_MODULE_NAME32) ++ [66]
       /\ length (Name moduleInfo) = 257%nat.
Proof.
  assert (Hwf : Forall MODULEENTRY32_wf [unterminated_entry])
    by (repeat constructor).
  split; [exact Hwf|].
  exists (ModuleInfo_of_entry unterminated_entry). split; [reflexivity|].
  pose proof (returned_names_are_c_strings 13 overrun_world
                [unterminated_entry] ERROR_NO_MORE_FILES
                [ModuleInfo_of_entry unterminated_entry]
                eq_refl Hwf eq_refl) as Hnames.
  apply Forall2_cons in Hnames as [Hname _].
  assert (Name (ModuleInfo_of_entry unterminated_entry)
          = repeat 65 (S MAX_MODULE_NAME32) ++ [66]) as Hunits.
  { apply (Hname (repeat 65 (S MAX_MODULE_NAME32) ++ [66])
             (repeat 0 (MAX_PATH - 2))).
    - reflexivity.
    - apply (bool_decide_unpack _). vm_compute. exact I. }
  split; [exact Hunits|]. rewrite Hunits. reflexivity.
Defined.

(* ===================================================================== *)
(** * Further properties of wmain *)
(* ===================================================================== *)

Lemma wmain_catch_Win32Error (errorMessage : string) (errorCode : Z)
    (w : World) :
  wmain_catch (Win32Error errorMessage errorCode) w =
    (Return kExitError,
     write_console (error_report errorMessage errorCode) w).
Proof.
  unfold wmain_catch, bind, sys, wcout, ret.
  rewrite write_console_app. reflexivity.
Qed.

(** X6. The printing loop writes one line per module, in the order of
    the list, each with the name and the size in decimal; it returns,
    throws nothing, and touches nothing but the console. *)
Theorem print_module_list_writes_lines (moduleList : list ModuleInfo)
    (w : World) :
  let w' := snd (print_module_list moduleList w) in
  fst (print_module_list moduleList w) = Return tt
  /\ console w' =
       console w
       ++ concat (map (fun moduleInfo =>
                         L " - " ++ Name moduleInfo ++ L "  ("
                         ++ decimal (Size moduleInfo) ++ L " bytes)" ++ LF)
                      moduleList)
  /\ calls w' = calls w
  /\ handles w' = handles w
  /\ last_error w' = last_error w.
Proof.
  cbn zeta. rewrite print_module_list_console. cbn. auto.
Qed.

Section WmainRuns.

Variable StrToInt64ExW : list Z -> Z -> option Z.

(** The whole run for a number whose process can be snapshotted. *)
Lemma wmain_on_modules (argv : list (list Z)) (w : World) (llResult : Z)
    (entries : list MODULEENTRY32) (stop : Z) :
  StrToInt64ExW (argv_at argv 1) STIF_DEFAULT = Some llResult ->
  processes w !! static_cast_DWORD llResult = Some (Modules entries stop) ->
  wmain StrToInt64ExW 2 argv w =
    (Return (if stop =? ERROR_NO_MORE_FILES then 0 else 1),
     {| processes := processes w;
        handles := handles w;
        last_error := stop;
        calls := calls w
                 ++ call_CreateToolhelp32Snapshot TH32CS_SNAPMODULE
                      (static_cast_DWORD llResult) (fresh_handle w)
                 :: walk_calls (fresh_handle w) (length entries)
                 ++ [call_CloseHandle (fresh_handle w) true];
        console :=
          console w ++ banner
          ++ (if stop =? ERROR_NO_MORE_FILES
              then listing (static_cast_DWORD llResult)
                     (map ModuleInfo_of_entry entries)
              else error_report msg_unexpected stop) |}).
Proof.
  intros Hparse Hproc. rewrite (wmain_number _ _ _ _ Hparse).
  rewrite (GetModuleListInProcess_modules _ (write_console banner w)
             entries stop) by exact Hproc.
  destruct (stop =? ERROR_NO_MORE_FILES).
  - unfold write_console. cbn. rewrite <- app_assoc. reflexivity.
  - rewrite wmain_catch_Win32Error.
    unfold write_console. cbn. rewrite <- app_assoc. reflexivity.
Qed.

(** The whole run for a number whose process cannot be snapshotted. *)
Lemma wmain_on_refused (argv : list (list Z)) (w : World) (llResult : Z)
    (error : Z) :
  StrToInt64ExW (argv_at argv 1) STIF_DEFAULT = Some llResult ->
  processes w !! static_cast_DWORD llResult = Some (Refused error) \/
  processes w !! static_cast_DWORD llResult = None
  /\ error = ERROR_INVALID_PARAMETER ->
  wmain StrToInt64ExW 2 argv w =
    (Return 1,
     {| processes := processes w;
        handles := handles w;
        last_error := error;
        calls := calls w
                 ++ [call_CreateToolhelp32Snapshot TH32CS_SNAPMODULE
                       (static_cast_DWORD llResult) INVALID_HANDLE_VALUE];
        console := console w ++ banner ++ error_report msg_init error |}).
Proof.
  intros Hparse Hproc. rewrite (wmain_number _ _ _ _ Hparse).
  rewrite (GetModuleListInProcess_refused _ (write_console banner w) error)
    by exact Hproc.
  rewrite wmain_catch_Win32Error.
  unfold write_console. cbn. rewrite <- app_assoc. reflexivity.
Qed.

(** The lines of the listing, with the names written out: for entries
    whose [szModule] holds the given names, each terminated. *)
Lemma module_lines_of_terminated (entries : list MODULEENTRY32)
    (names : list (list Z)) :
  Forall2 (fun entry name =>
             (0 ∉ name) /\ exists junk, szModule entry = name ++ 0 :: junk)
          entries names ->
  map module_line (map ModuleInfo_of_entry entries) =
    zip_with (fun name entry =>
                L " - " ++ name ++ L "  (" ++ decimal (modBaseSize entry)
                ++ L " bytes)" ++ LF)
             names entries.
Proof.
  induction 1 as [|entry name entries names [Hname [junk Hbuf]] _ IH];
    [reflexivity|].
  cbn [map zip_with]. rewrite IH. unfold module_line at 1.
  rewrite (ModuleInfo_of_entry_terminated entry name junk Hbuf Hname).
  reflexivity.
Qed.

(** X7. A process identifier in the [DWORD] range, given as the one
    argument, whose process has a module list that ends normally and
    whose entries hold the names [names] in [szModule], each without a
    NUL and followed by one: the run returns 0, and what it adds to the
    console is the banner, the header with that identifier, and one line
    per module in the order of the snapshot, with that name and the
    entry's [modBaseSize] in decimal; the handle it used is closed
    again. *)
Theorem valid_pid_is_listed (argv : list (list Z)) (w : World)
    (processID : Z) (entries : list MODULEENTRY32)
    (names : list (list Z)) :
  0 <= processID < 2^32 ->
  StrToInt64ExW (argv_at argv 1) STIF_DEFAULT = Some processID ->
  processes w !! processID = Some (Modules entries ERROR_NO_MORE_FILES) ->
  Forall2 (fun entry name =>
             (0 ∉ name) /\ exists junk, szModule entry = name ++ 0 :: junk)
          entries names ->
  let w' := snd (wmain StrToInt64ExW 2 argv w) in
  fst (wmain StrToInt64ExW 2 argv w) = Return 0
  /\ console w' =
       console w ++ banner
       ++ (L " Module List for Process ID = " ++ decimal processID ++ LF)
       ++ (L " ========================================" ++ LF ++ LF)
       ++ concat (zip_with
                    (fun name entry =>
                       L " - " ++ name ++ L "  ("
                       ++ decimal (modBaseSize entry) ++ L " bytes)" ++ LF)
                    names entries)
  /\ handles w' = handles w.
Proof.
  intros Hrange Hparse Hproc Hnames.
  assert (Hcast : static_cast_DWORD processID = processID)
    by (apply Z.mod_small; exact Hrange).
  rewrite <- Hcast in Hproc.
  cbn zeta. rewrite (wmain_on_modules _ _ _ _ _ Hparse Hproc).
  cbn [fst snd console handles Z.eqb ERROR_NO_MORE_FILES Pos.eqb].
  rewrite Hcast. unfold listing.
  rewrite (module_lines_of_terminated entries names Hnames).
  repeat split.
Qed.

(** X8. A number whose process the system refuses to snapshot, or does
    not know: the run returns 1 and adds to the console the banner, the
    text of the failed initialisation and, on the next line, the error
    code the system gave; the snapshot request is the only call made and
    no handle is opened or closed. *)
Theorem refused_process_is_reported (argv : list (list Z)) (w : World)
    (llResult error : Z) :
  StrToInt64ExW (argv_at argv 1) STIF_DEFAULT = Some llResult ->
  processes w !! static_cast_DWORD llResult = Some (Refused error) \/
  processes w !! static_cast_DWORD llResult = None
  /\ error = ERROR_INVALID_PARAMETER ->
  let w' := snd (wmain StrToInt64ExW 2 argv w) in
  fst (wmain StrToInt64ExW 2 argv w) = Return 1
  /\ console w' =
       console w ++ banner
       ++ (L "*** ERROR: "
           ++ L "Cannot init the module enumeration process (CreateToolhelp32Snapshot failed)."
           ++ LF)
       ++ (L "    (Error code: " ++ decimal error ++ L ")" ++ LF)
  /\ calls w' =
       calls w ++ [call_CreateToolhelp32Snapshot TH32CS_SNAPMODULE
                     (static_cast_DWORD llResult) INVALID_HANDLE_VALUE]
  /\ handles w' = handles w.
Proof.
  intros Hparse Hproc. cbn zeta.
  rewrite (wmain_on_refused _ _ _ _ Hparse Hproc).
  repeat split.
Qed.

(** X9. A number whose process can be snapshotted but whose walk breaks
    off with a code other than [ERROR_NO_MORE_FILES]: the run returns 1
    and adds to the console the banner and the report of the unexpected
    termination with that code; no module line is printed, whatever was
    gathered before the break; the handle is closed again. *)
Theorem broken_walk_is_reported (argv : list (list Z)) (w : World)
    (llResult : Z) (entries : list MODULEENTRY32) (stop : Z) :
  StrToInt64ExW (argv_at argv 1) STIF_DEFAULT = Some llResult ->
  processes w !! static_cast_DWORD llResult = Some (Modules entries stop) ->
  stop <> ERROR_NO_MORE_FILES ->
  let w' := snd (wmain StrToInt64ExW 2 argv w) in
  fst (wmain StrToInt64ExW 2 argv w) = Return 1
  /\ console w' =
       console w ++ banner
       ++ (L "*** ERROR: "
           ++ L "Unexpected termination of the module enumeration process."
           ++ LF)
       ++ (L "    (Error code: " ++ decimal stop ++ L ")" ++ LF)
  /\ handles w' = handles w.
Proof.
  intros Hparse Hproc Hstop. cbn zeta.
  rewrite (wmain_on_modules _ _ _ _ _ Hparse Hproc).
  destruct (Z.eqb_spec stop ERROR_NO_MORE_FILES); [contradiction|].
  repeat split.
Qed.

(** X10. On every run, whatever the arguments and the state of the
    system: [wmain] returns (no exception leaves it), the handles open
    afterwards are those open before, the process table is untouched, and
    in the calls the run adds to the log the handles opened are the
    handles closed. *)
Theorem wmain_leaves_no_handle_open (argc : Z) (argv : list (list Z))
    (w : World) :
  let w' := snd (wmain StrToInt64ExW argc argv w) in
  (exists status, fst (wmain StrToInt64ExW argc argv w) = Return status)
  /\ handles w' = handles w
  /\ processes w' = processes w
  /\ exists trace,
       calls w' = calls w ++ trace /\ opened trace = closed trace.
Proof.
  cbn zeta.
  destruct (Z.eq_dec argc 2) as [->|Hargc].
  2:{ rewrite wmain_wrong_count by assumption. cbn.
      repeat split; eauto. exists []. now rewrite app_nil_r. }
  destruct (StrToInt64ExW (argv_at argv 1) STIF_DEFAULT)
    as [llResult|] eqn:Hparse.
  2:{ rewrite wmain_not_a_number by assumption. cbn.
      repeat split; eauto. exists []. now rewrite app_nil_r. }
  destruct (processes w !! static_cast_DWORD llResult)
    as [[error|entries stop]|] eqn:Hproc.
  - rewrite (wmain_on_refused _ _ _ error Hparse) by (left; exact Hproc).
    cbn. repeat split; eauto.
  - rewrite (wmain_on_modules _ _ _ _ _ Hparse Hproc).
    cbn [fst snd handles processes calls].
    repeat split; eauto.
    eexists. split; [reflexivity|].
    destruct (fresh_handle_valid w) as [Hvalid _].
    destruct (lister_trace_balanced (fresh_handle w)
                (static_cast_DWORD llResult) (length entries) Hvalid)
      as [-> ->].
    reflexivity.
  - rewrite (wmain_on_refused _ _ _ ERROR_INVALID_PARAMETER Hparse)
      by (right; split; [exact Hproc|reflexivity]).
    cbn. repeat split; eauto.
Qed.

(** X11. Two runs whose numbers differ by a multiple of 2^32 are the
    same run: the same status and the same world afterwards. *)
Theorem congruent_arguments_same_run (argv argv' : list (list Z))
    (w : World) (llResult k : Z) :
  StrToInt64ExW (argv_at argv 1) STIF_DEFAULT = Some llResult ->
  StrToInt64ExW (argv_at argv' 1) STIF_DEFAULT = Some (llResult + k * 2^32) ->
  wmain StrToInt64ExW 2 argv' w = wmain StrToInt64ExW 2 argv w.
Proof.
  intros Hparse Hparse'.
  rewrite (wmain_number _ _ _ _ Hparse), (wmain_number _ _ _ _ Hparse').
  unfold static_cast_DWORD. rewrite Z.mod_add by lia. reflexivity.
Qed.

End WmainRuns.

Lemma valid_pid_is_listed_witness :
  let w' := snd (wmain Shlwapi.StrToInt64ExW 2
                   [L "ModuleList.exe"; L "4242"] Fixture.world) in
  fst (wmain Shlwapi.StrToInt64ExW 2
         [L "ModuleList.exe"; L "4242"] Fixture.world) = Return 0
  /\ console w' =
       console Fixture.world ++ banner
       ++ (L " Module List for Process ID = " ++ decimal 4242 ++ LF)
       ++ (L " ========================================" ++ LF ++ LF)
       ++ (L " - " ++ L "alpha.dll" ++ L "  (" ++ decimal 1024
           ++ L " bytes)" ++ LF)
       ++ (L " - " ++ L "beta.dll" ++ L "  (" ++ decimal 2048
           ++ L " bytes)" ++ LF)
  /\ handles w' = handles Fixture.world.
Proof.
  apply (valid_pid_is_listed Shlwapi.StrToInt64ExW
           [L "ModuleList.exe"; L "4242"] Fixture.world 4242
           [Fixture.entry "alpha.dll" 1024; Fixture.entry "beta.dll" 2048]
           [L "alpha.dll"; L "beta.dll"]).
  - lia.
  - reflexivity.
  - reflexivity.
  - constructor; [|constructor; [|constructor]].
    + split; [apply (bool_decide_unpack _); vm_compute; exact I|].
      exists (120 :: 120 :: repeat 0 (S MAX_MODULE_NAME32 - 12)).
      reflexivity.
    + split; [apply (bool_decide_unpack _); vm_compute; exact I|].
      exists (120 :: 120 :: repeat 0 (S MAX_MODULE_NAME32 - 11)).
      reflexivity.
Defined.

Lemma refused_process_is_reported_witness :
  let w' := snd (wmain Shlwapi.StrToInt64ExW 2
                   [L "ModuleList.exe"; L "4"] Fixture.world) in
  fst (wmain Shlwapi.StrToInt64ExW 2
         [L "ModuleList.exe"; L "4"] Fixture.world) = Return 1
  /\ console w' =
       console Fixture.world ++ banner
       ++ (L "*** ERROR: "
           ++ L "Cannot init the module enumeration process (CreateToolhelp32Snapshot failed)."
           ++ LF)
       ++ (L "    (Error code: " ++ decimal 5 ++ L ")" ++ LF)
  /\ calls w' =
       calls Fixture.world
       ++ [call_CreateToolhelp32Snapshot TH32CS_SNAPMODULE 4
             INVALID_HANDLE_VALUE]
  /\ handles w' = handles Fixture.world.
Proof.
  apply (refused_process_is_reported Shlwapi.StrToInt64ExW
           [L "ModuleList.exe"; L "4"] Fixture.world 4 5).
  - reflexivity.
  - left. reflexivity.
Defined.

Lemma broken_walk_is_reported_witness :
  let w' := snd (wmain Shlwapi.StrToInt64ExW 2
                   [L "ModuleList.exe"; L "7"] Fixture.world) in
  fst (wmain Shlwapi.StrToInt64ExW 2
         [L "ModuleList.exe"; L "7"] Fixture.world) = Return 1
  /\ console w' =
       console Fixture.world ++ banner
       ++ (L "*** ERROR: "
           ++ L "Unexpected termination of the module enumeration process."
           ++ LF)
       ++ (L "    (Error code: " ++ decimal 5 ++ L ")" ++ LF)
  /\ handles w' = handles Fixture.world.
Proof.
  apply (broken_walk_is_reported Shlwapi.StrToInt64ExW
           [L "ModuleList.exe"; L "7"] Fixture.world 7
           [Fixture.entry "gamma.dll" 512] 5).
  - reflexivity.
  - reflexivity.
  - discriminate.
Defined.

Lemma congruent_arguments_same_run_witness :
  wmain Shlwapi.StrToInt64ExW 2
    [L "ModuleList.exe"; L "4294971538"] Fixture.world
  = wmain Shlwapi.StrToInt64ExW 2
      [L "ModuleList.exe"; L "4242"] Fixture.world.
Proof.
  apply (congruent_arguments_same_run Shlwapi.StrToInt64ExW
           [L "ModuleList.exe"; L "4242"]
           [L "ModuleList.exe"; L "4294971538"] Fixture.world 4242 1).
  - reflexivity.
  - reflexivity.
Defined.

Example unterminated_szModule_runs_into_szExePath :
  Name (ModuleInfo_of_entry unterminated_entry)
    = repeat 65 (S MAX_MODULE_NAME32) ++ [66]
  /\ length (szModule unterminated_entry) = 256%nat
  /\ length (Name (ModuleInfo_of_entry unterminated_entry)) = 257%nat.
Proof. vm_compute. repeat split; reflexivity. Qed.
